(** * PantryChef AI: the request handlers of [backend/main.py]

    A shallow embedding of the pantry endpoints (list, delete one, clear)
    and of the recipe endpoint (expiry classification, prompt construction,
    the call to the text-generation service and the packaging of the
    response), followed by the properties the specification states about
    them. *)

From Stdlib Require Import ZArith List String Ascii Bool Lia Permutation.
Import ListNotations.
Local Open Scope string_scope.
Local Open Scope Z_scope.

(** ** Data model *)

(** A [datetime.date], represented by its day number ([date.toordinal()]);
    subtracting two dates gives a [timedelta] whose [.days] is the
    difference of the day numbers. *)
Definition date : Type := Z.

Record timedelta : Type := mk_timedelta { days : Z }.

Definition date_sub (a b : date) : timedelta := mk_timedelta (a - b).

(** A row of the pantry table: [PantryItem(id, name, expiry_date)], the
    expiry date being nullable. *)
Record PantryItem : Type := mkPantryItem {
  id : Z;
  name : string;
  expiry_date : option date
}.

(** The body of the request sent to the text-generation service. *)
Record ChatRequest : Type := mkChatRequest {
  model : string;
  messages : list (string * string);   (* role, content *)
  temperature : Z * Z;                 (* a decimal fraction: numerator, denominator *)
  max_tokens : Z
}.

(** [RecipeResponse], the successful result of the recipe endpoint. *)
Record RecipeResponse : Type := mkRecipeResponse {
  recipe : string;
  expiring_items : list string;
  total_items : Z;
  items_used : Z
}.

(** The dict literals returned by the delete endpoints. *)
Inductive json : Type :=
| JStr (s : string)
| JInt (n : Z).

Definition body : Type := list (string * json).

(** [HTTPException(status_code, detail)], raised by a handler, and any other
    Python exception, of which the handlers only ever use [str(e)]. *)
Record HTTPException : Type := mkHTTPException {
  status_code : Z;
  detail : string
}.

Record Exception : Type := mkException { str : string }.

(** ** The world a request runs in *)

(** The rows of the pantry table in storage order, the date the clock
    shows, and the calls made so far to [client.chat.completions.create],
    each recorded by its request (oldest first).  A call is one entry,
    whatever the client does on the wire to serve it (see
    [create_attempts]). *)
Record World : Type := mkWorld {
  db : list PantryItem;
  clock : date;
  sent : list ChatRequest
}.

Definition set_db (rows : list PantryItem) (w : World) : World :=
  mkWorld rows (clock w) (sent w).

Definition log_request (req : ChatRequest) (w : World) : World :=
  mkWorld (db w) (clock w) (sent w ++ [req]).

(** A computation that reads and updates the world and either returns a
    value or raises an exception of type [E]. *)
Definition M (E A : Type) : Type := World -> (E + A) * World.

Definition ret {E A : Type} (a : A) : M E A := fun w => (inr a, w).

Definition bind {E A B : Type} (m : M E A) (k : A -> M E B) : M E B :=
  fun w =>
    match m w with
    | (inl e, w') => (inl e, w')
    | (inr a, w') => k a w'
    end.

Definition raise {E A : Type} (e : E) : M E A := fun w => (inl e, w).

(** [try: m  except Exception as e: h e] *)
Definition try_except {E E' A : Type} (m : M E A) (h : E -> M E' A) : M E' A :=
  fun w =>
    match m w with
    | (inl e, w') => h e w'
    | (inr a, w') => (inr a, w')
    end.

Declare Scope handler_scope.
Delimit Scope handler_scope with handler.
Notation "x <- m ;; k" := (bind m (fun x => k))
  (at level 61, m at next level, right associativity) : handler_scope.
Notation "m ;; k" := (bind m (fun _ => k))
  (at level 61, right associativity) : handler_scope.
Local Open Scope handler_scope.

(** A request handler raises [HTTPException]s only. *)
Definition Handler (A : Type) : Type := M HTTPException A.

(** ** The database session *)

(** [db.query(PantryItem).all()] *)
Definition query_all {E : Type} : M E (list PantryItem) :=
  fun w => (inr (db w), w).

(** [db.query(PantryItem).filter(PantryItem.id == item_id).first()] *)
Definition query_filter_id_first {E : Type} (item_id : Z) : M E (option PantryItem) :=
  fun w => (inr (find (fun row => id row =? item_id) (db w)), w).

(** [db.delete(item)]: the row is deleted by its primary key. *)
Definition db_delete {E : Type} (item : PantryItem) : M E unit :=
  fun w => (inr tt, set_db (filter (fun row => negb (id row =? id item)) (db w)) w).

(** [db.query(PantryItem).delete()]: deletes every row and returns how many
    rows were deleted. *)
Definition query_delete {E : Type} : M E Z :=
  fun w => (inr (Z.of_nat (List.length (db w))), set_db [] w).

(** [db.commit()]: the changes of the session were applied as they were
    made. *)
Definition db_commit {E : Type} : M E unit := ret tt.

(** [datetime.now().date()] *)
Definition datetime_now_date {E : Type} : M E date :=
  fun w => (inr (clock w), w).

(** ** Pantry endpoints *)

(** [GET /api/pantry/] *)
Definition get_pantry_items : Handler (list PantryItem) :=
  query_all.

(** [DELETE /api/pantry/{item_id}] *)
Definition delete_pantry_item (item_id : Z) : Handler body :=
  item <- query_filter_id_first item_id ;;
  match item with
  | None => raise (mkHTTPException 404 "Item not found")
  | Some item =>
      db_delete item ;;
      db_commit ;;
      ret [("message", JStr "Item deleted successfully"); ("id", JInt item_id)]
  end.

(** [DELETE /api/pantry/] *)
Definition clear_pantry : Handler body :=
  query_delete ;;
  db_commit ;;
  ret [("message", JStr "Pantry cleared")].

(** [POST /api/pantry/].  The id of the new row is given by the database;
    the table definition is not part of this file, so the allocation is a
    parameter [next_id], of which the store contract only says that the id
    is fresh. *)
Record PantryItemCreate : Type := mkPantryItemCreate {
  new_name : string;
  new_expiry_date : option date
}.

Section Insert.

Variable next_id : list PantryItem -> Z.

(** [db.add(db_item); db.commit(); db.refresh(db_item)] *)
Definition db_add {E : Type} (n : string) (e : option date) : M E PantryItem :=
  fun w =>
    let db_item := mkPantryItem (next_id (db w)) n e in
    (inr db_item, set_db (db w ++ [db_item]) w).

Definition add_pantry_item (item : PantryItemCreate) : Handler PantryItem :=
  db_item <- db_add (new_name item) (new_expiry_date item) ;;
  db_commit ;;
  ret db_item.

End Insert.

(** ** Recipe endpoint *)

(** The body of the loop over [items]: the name goes to [all_ingredients],
    and to [expiring_soon] as well when the item has an expiry date that is
    at most three days away.  ([if item.expiry_date:] tests for [None]: a
    date is never false.) *)
Definition loop_body (today : date) (acc : list string * list string)
    (item : PantryItem) : list string * list string :=
  let '(expiring_soon, all_ingredients) := acc in
  let all_ingredients := (all_ingredients ++ [name item])%list in
  match expiry_date item with
  | Some d =>
      let days_left := days (date_sub d today) in
      if days_left <=? 3
      then ((expiring_soon ++ [name item])%list, all_ingredients)
      else (expiring_soon, all_ingredients)
  | None => (expiring_soon, all_ingredients)
  end.

(** [for item in items: ...], from two empty lists. *)
Definition scan (today : date) (items : list PantryItem) : list string * list string :=
  fold_left (loop_body today) items ([], []).

(** [x in xs] on a list of strings. *)
Definition str_in (x : string) (xs : list string) : bool :=
  existsb (String.eqb x) xs.

(** [sep.join(xs)] *)
Definition join (sep : string) (xs : list string) : string :=
  String.concat sep xs.

Definition LF : string := String (ascii_of_nat 10) EmptyString.

(** The lines of the prompt that gives priority to the expiring items. *)
Definition priority_prompt (must_use also_available : list string) : string :=
  join LF
    [ "You are a creative chef. Generate ONE delicious recipe.";
      EmptyString;
      "MUST USE (expiring soon - HIGH PRIORITY):";
      join ", " must_use;
      EmptyString;
      "ALSO AVAILABLE:";
      join ", " also_available;
      EmptyString;
      "Requirements:";
      "- You MUST use at least 2 expiring ingredients";
      "- 30 minutes or less cook time";
      "- Portions for 2 people";
      "- Step-by-step instructions";
      "- Start with the recipe name" ].

(** The lines of the prompt used when nothing is expiring. *)
Definition plain_prompt (available : list string) : string :=
  join LF
    [ "You are a creative chef. Generate ONE delicious recipe.";
      EmptyString;
      "AVAILABLE INGREDIENTS:";
      join ", " available;
      EmptyString;
      "Requirements:";
      "- Practical recipe (30 minutes or less)";
      "- Portions for 2 people";
      "- Step-by-step instructions";
      "- Start with the recipe name" ].

(** [i for i in all_ingredients if i not in expiring_soon] *)
Definition not_in_expiring (expiring_soon all_ingredients : list string) : list string :=
  filter (fun i => negb (str_in i expiring_soon)) all_ingredients.

(** [if expiring_soon: prompt = ... else: prompt = ...] *)
Definition build_prompt (expiring_soon all_ingredients : list string) : string :=
  match expiring_soon with
  | _ :: _ =>
      priority_prompt expiring_soon (not_in_expiring expiring_soon all_ingredients)
  | [] => plain_prompt all_ingredients
  end.

Definition chat_request (prompt : string) : ChatRequest :=
  {| model := "gpt-4o-mini";
     messages :=
       [ ("system", "You are a helpful chef who creates delicious, practical recipes.");
         ("user", prompt) ];
     temperature := (8, 10);
     max_tokens := 500 |}.

(** [len(expiring_soon) if expiring_soon else len(all_ingredients)] *)
Definition count_used (expiring_soon all_ingredients : list string) : Z :=
  match expiring_soon with
  | _ :: _ => Z.of_nat (List.length expiring_soon)
  | [] => Z.of_nat (List.length all_ingredients)
  end.

Section Service.

(** The client of the text-generation service: given the calls made so far
    and a new request, [client.chat.completions.create(...)] followed by
    [.choices[0].message.content] either raises an exception of which [inl]
    holds the [str], or gives the generated text.  The HTTP requests the
    client makes to get there, retries included, are inside this
    parameter. *)
Variable service : list ChatRequest -> ChatRequest -> string + string.

(** [markdown.markdown(text)], which may raise as well. *)
Variable markdown_markdown : string -> string + string.

Definition chat_completions_create (req : ChatRequest) : M Exception string :=
  fun w =>
    match service (sent w) req with
    | inl e => (inl (mkException e), log_request req w)
    | inr text => (inr text, log_request req w)
    end.

Definition markdown (text : string) : M Exception string :=
  match markdown_markdown text with
  | inl e => raise (mkException e)
  | inr html => ret html
  end.

(** [POST /api/generate-recipe/] *)
Definition generate_recipe : Handler RecipeResponse :=
  items <- query_all ;;
  match items with
  | [] =>
      raise (mkHTTPException 400
               "Pantry is empty. Please add some ingredients first!")
  | _ :: _ =>
      today <- datetime_now_date ;;
      let '(expiring_soon, all_ingredients) := scan today items in
      let prompt := build_prompt expiring_soon all_ingredients in
      recipe_html <-
        try_except
          (recipe_text <- chat_completions_create (chat_request prompt) ;;
           markdown recipe_text)
          (fun e =>
             raise (mkHTTPException 500
                      ("Failed to generate recipe: " ++ str e))) ;;
      ret {| recipe := recipe_html;
             expiring_items := expiring_soon;
             total_items := Z.of_nat (List.length all_ingredients);
             items_used := count_used expiring_soon all_ingredients |}
  end.

End Service.

(** ** The client on the wire *)






(** ** Vocabulary of the specification *)

(** The store invariant: ids are unique. *)
Definition unique_ids (rows : list PantryItem) : Prop :=
  NoDup (map id rows).

(** An item is expiring soon when it has an expiry date and that date is
    three or fewer days after today (or already past). *)
Definition expiring_soon (today : date) (item : PantryItem) : Prop :=
  exists d, expiry_date item = Some d /\ d - today <= 3.

Definition expiring_soonb (today : date) (item : PantryItem) : bool :=
  match expiry_date item with
  | Some d => d - today <=? 3
  | None => false
  end.

(** The prompt the recipe endpoint builds for the items [items] on the day
    [today]. *)
Definition prompt_of (today : date) (items : list PantryItem) : string :=
  let '(expiring_soon, all_ingredients) := scan today items in
  build_prompt expiring_soon all_ingredients.

(** [s] occurs in [t]. *)
Definition occurs_in (s t : string) : Prop :=
  exists pre post, t = pre ++ s ++ post.

(** A result reports the number [n] when it is a body with a field whose
    value is [n]. *)
Definition reports_count (n : Z) (r : HTTPException + body) : Prop :=
  exists resp key, r = inr resp /\ In (key, JInt n) resp.

(** ** Process start *)

(** The check made when the module is loaded: [api_key] is what
    [os.getenv] gives for the key of the service, [None] when the variable
    is not set; [if not api_key: raise Exception(...)] rejects [None] and
    the empty string alike.  [env_path] is the path of the [.env] file as
    printed in the message. *)
Definition load_api_key (api_key : option string) (env_path : string)
    : Exception + string :=
  match api_key with
  | None | Some EmptyString =>
      inl (mkException
             ("❌ OPENAI_API_KEY not found. Make sure .env exists at: " ++ env_path))
  | Some key => inr key
  end.

(** An id allocation that meets the contract of [next_id]: one more than
    the largest id in use, and 1 on an empty table. *)
Definition next_after_max (rows : list PantryItem) : Z :=
  1 + fold_right Z.max 0 (map id rows).

(** ** The classification loop *)

Lemma expiring_soonb_spec (today : date) (item : PantryItem) :
  expiring_soonb today item = true <-> expiring_soon today item.
Proof.
  unfold expiring_soonb, expiring_soon.
  destruct (expiry_date item) as [d|].
  - rewrite Z.leb_le. split.
    + intros H. exists d. auto.
    + intros [d' [E H]]. injection E as ->. exact H.
  - split; [discriminate | intros [d [E _]]; discriminate].
Qed.

Lemma loop_body_eq (today : date) (es all : list string) (item : PantryItem) :
  loop_body today (es, all) item =
  ((es ++ if expiring_soonb today item then [name item] else [])%list,
   (all ++ [name item])%list).
Proof.
  unfold loop_body, expiring_soonb, date_sub. simpl.
  destruct (expiry_date item) as [d|].
  - destruct (d - today <=? 3); [reflexivity | now rewrite app_nil_r].
  - now rewrite app_nil_r.
Qed.

Lemma fold_loop_body (today : date) (items : list PantryItem) :
  forall es all,
    fold_left (loop_body today) items (es, all) =
    ((es ++ map name (filter (expiring_soonb today) items))%list,
     (all ++ map name items)%list).
Proof.
  induction items as [|item items IH]; intros es all.
  - simpl. now rewrite !app_nil_r.
  - cbn [fold_left map filter]. rewrite loop_body_eq, IH.
    destruct (expiring_soonb today item); cbn [map];
      rewrite <- !app_assoc; try rewrite app_nil_l; reflexivity.
Qed.

Lemma scan_spec (today : date) (items : list PantryItem) :
  scan today items =
  (map name (filter (expiring_soonb today) items), map name items).
Proof. unfold scan. now rewrite fold_loop_body. Qed.

Lemma app_one_neq {A : Type} (l : list A) (x : A) : (l ++ [x])%list <> l.
Proof.
  intros H. apply (f_equal (@List.length A)) in H.
  rewrite length_app in H. simpl in H. lia.
Qed.

(** C1: the loop marks an item as expiring soon (appends its name to
    [expiring_soon]) if and only if the item has an expiry date and that
    date minus today is at most 3 days, negative differences included; an
    item without expiry date is never marked; over a whole list the marked
    names are those of the items satisfying the condition, in order. *)
Theorem expiring_soon_classification (today : date) (item : PantryItem)
    (es all : list string) :
  (fst (loop_body today (es, all) item) = (es ++ [name item])%list
     <-> exists d, expiry_date item = Some d /\ d - today <= 3)
  /\ (fst (loop_body today (es, all) item) = es
     <-> ~ exists d, expiry_date item = Some d /\ d - today <= 3)
  /\ (expiry_date item = None -> fst (loop_body today (es, all) item) = es)
  /\ forall items,
       fst (scan today items) = map name (filter (expiring_soonb today) items).
Proof.
  rewrite loop_body_eq. simpl.
  pose proof (expiring_soonb_spec today item) as Hs.
  unfold expiring_soon in Hs.
  repeat split.
  - intros H. apply Hs. destruct (expiring_soonb today item); [reflexivity|].
    rewrite app_nil_r in H. symmetry in H. now apply app_one_neq in H.
  - intros H. apply Hs in H. now rewrite H.
  - intros H C. apply Hs in C. rewrite C in H. now apply app_one_neq in H.
  - intros H. destruct (expiring_soonb today item).
    + exfalso. apply H, Hs. reflexivity.
    + apply app_nil_r.
  - intros H. unfold expiring_soonb. rewrite H. apply app_nil_r.
  - intros items. now rewrite scan_spec.
Qed.

Lemma expiring_soon_classification_witness :
  let past := mkPantryItem 1 "Eggs" (Some 98) in
  let undated := mkPantryItem 2 "Rice" None in
  fst (loop_body 100 ([], []) past) = ["Eggs"]
  /\ fst (loop_body 100 (["Eggs"], ["Eggs"]) undated) = ["Eggs"].
Proof.
  split.
  - apply (proj1 (expiring_soon_classification 100 (mkPantryItem 1 "Eggs" (Some 98)) [] [])).
    exists 98. split; [reflexivity | lia].
  - apply (proj1 (proj2 (proj2
      (expiring_soon_classification 100 (mkPantryItem 2 "Rice" None) ["Eggs"] ["Eggs"])))).
    reflexivity.
Defined.

(** ** What the recipe endpoint does on a non-empty pantry *)

Lemma prompt_of_eq (today : date) (items : list PantryItem) :
  prompt_of today items =
  build_prompt (map name (filter (expiring_soonb today) items)) (map name items).
Proof. unfold prompt_of. now rewrite scan_spec. Qed.

Lemma generate_recipe_nonempty
    (service : list ChatRequest -> ChatRequest -> string + string)
    (markdown_markdown : string -> string + string) (w : World) :
  db w <> [] ->
  let es := map name (filter (expiring_soonb (clock w)) (db w)) in
  let all := map name (db w) in
  let req := chat_request (prompt_of (clock w) (db w)) in
  generate_recipe service markdown_markdown w =
  match service (sent w) req with
  | inl e =>
      (inl (mkHTTPException 500 ("Failed to generate recipe: " ++ e)),
       log_request req w)
  | inr text =>
      match markdown_markdown text with
      | inl e =>
          (inl (mkHTTPException 500 ("Failed to generate recipe: " ++ e)),
           log_request req w)
      | inr html =>
          (inr {| recipe := html;
                  expiring_items := es;
                  total_items := Z.of_nat (List.length all);
                  items_used := count_used es all |},
           log_request req w)
      end
  end.
Proof.
  intros Hne es all req.
  unfold generate_recipe, bind, query_all, datetime_now_date.
  destruct (db w) as [|item items] eqn:Hdb; [contradiction|].
  subst es all req. rewrite prompt_of_eq, scan_spec.
  unfold try_except, bind, chat_completions_create, markdown.
  destruct (service (sent w) _) as [e|text]; [reflexivity|].
  destruct (markdown_markdown text) as [e|html]; reflexivity.
Qed.

(** ** The sections of the prompt *)

Lemma str_in_iff (x : string) (xs : list string) :
  str_in x xs = true <-> In x xs.
Proof.
  unfold str_in. rewrite existsb_exists. split.
  - intros [y [Hy E]]. apply String.eqb_eq in E. now subst.
  - intros H. exists x. split; [exact H | apply String.eqb_refl].
Qed.

Lemma not_in_expiring_names (es : list string) (items : list PantryItem) :
  not_in_expiring es (map name items) =
  map name (filter (fun item => negb (str_in (name item) es)) items).
Proof.
  unfold not_in_expiring.
  induction items as [|item items IH]; [reflexivity|].
  cbn [map filter]. destruct (negb (str_in (name item) es)); cbn [map];
    now rewrite IH.
Qed.

Lemma filter_nonempty {A : Type} (f : A -> bool) (l : list A) (x : A) :
  In x l -> f x = true -> filter f l <> [].
Proof.
  intros Hin Hf E.
  assert (H : In x (filter f l)) by (apply filter_In; auto).
  rewrite E in H. exact H.
Qed.

(** Without a clash of names, filtering on the name agrees with filtering
    on the classification. *)
Lemma name_filter_is_class_filter (today : date) (items : list PantryItem) :
  (forall a b, In a items -> In b items ->
     expiring_soon today a -> ~ expiring_soon today b -> name a <> name b) ->
  filter (fun item =>
            negb (str_in (name item)
                    (map name (filter (expiring_soonb today) items)))) items =
  filter (fun item => negb (expiring_soonb today item)) items.
Proof.
  intros Hclash. apply filter_ext_in. intros b Hb. f_equal.
  destruct (expiring_soonb today b) eqn:Eb.
  - apply str_in_iff, in_map, filter_In. auto.
  - destruct (str_in _ _) eqn:Es; [|reflexivity]. exfalso.
    apply str_in_iff, in_map_iff in Es. destruct Es as [a [Hn Ha]].
    apply filter_In in Ha. destruct Ha as [Ha Ea].
    apply (Hclash a b Ha Hb); [now apply expiring_soonb_spec | | exact Hn].
    intros C. apply expiring_soonb_spec in C. congruence.
Qed.

(** C2 (as amended): when at least one item is expiring soon, the MUST USE
    section of the prompt lists exactly the expiring-soon items in encounter
    order, and the ALSO AVAILABLE section lists, in encounter order, the
    items whose name is not the name of an expiring-soon item; when no item
    that is not expiring soon shares its name with an expiring-soon item,
    that is exactly the items not classified as expiring soon, undated ones
    included.  This prompt is the one the endpoint sends. *)
Theorem prompt_sections (today : date) (items : list PantryItem) :
  (exists item, In item items /\ expiring_soon today item) ->
  let must_use := map name (filter (expiring_soonb today) items) in
  prompt_of today items =
    priority_prompt must_use
      (map name (filter (fun item => negb (str_in (name item) must_use)) items))
  /\ ((forall a b, In a items -> In b items ->
         expiring_soon today a -> ~ expiring_soon today b -> name a <> name b) ->
      prompt_of today items =
        priority_prompt must_use
          (map name (filter (fun item => negb (expiring_soonb today item)) items)))
  /\ forall service markdown_markdown w,
       db w = items -> clock w = today ->
       sent (snd (generate_recipe service markdown_markdown w)) =
       (sent w ++ [chat_request (prompt_of today items)])%list.
Proof.
  intros [x [Hx Ex]] must_use.
  assert (Hne : filter (expiring_soonb today) items <> []).
  { apply (filter_nonempty _ _ x Hx). now apply expiring_soonb_spec. }
  assert (Hp : prompt_of today items =
               priority_prompt must_use
                 (map name (filter (fun item => negb (str_in (name item) must_use))
                              items))).
  { rewrite prompt_of_eq. fold must_use. unfold build_prompt.
    rewrite not_in_expiring_names.
    destruct must_use as [|n l] eqn:Em; [|reflexivity].
    apply map_eq_nil in Em. contradiction. }
  split; [exact Hp|]. split.
  - intros Hclash. rewrite Hp. subst must_use.
    now rewrite name_filter_is_class_filter.
  - intros service md w Hdb Hclock.
    assert (Hw : db w <> []).
    { rewrite Hdb. intros E. rewrite E in Hx. exact Hx. }
    rewrite (generate_recipe_nonempty service md w Hw), Hdb, Hclock.
    destruct (service _ _) as [e|text]; [reflexivity|].
    destruct (md text); reflexivity.
Qed.

Lemma prompt_sections_witness :
  let items := [mkPantryItem 1 "Eggs" (Some 101); mkPantryItem 2 "Rice" None] in
  prompt_of 100 items = priority_prompt ["Eggs"] ["Rice"].
Proof.
  intros items.
  refine (proj1 (proj2 (prompt_sections 100 items _)) _).
  - exists (mkPantryItem 1 "Eggs" (Some 101)). split; [simpl; auto|].
    exists 101. split; [reflexivity | lia].
  - intros a b Ha Hb Ea Eb.
    apply expiring_soonb_spec in Ea.
    assert (Eb' : expiring_soonb 100 b = false).
    { destruct (expiring_soonb 100 b) eqn:E; [|reflexivity].
      exfalso. apply Eb, expiring_soonb_spec, E. }
    simpl in Ha, Hb.
    destruct Ha as [<-|[<-|[]]]; destruct Hb as [<-|[<-|[]]];
      try discriminate; vm_compute; discriminate.
Defined.

(** C2, as stated, fails on two items of the same name of which only the
    first is expiring soon: the second is not classified as expiring soon,
    yet the ALSO AVAILABLE section is empty. *)
Lemma prompt_sections_counterexample :
  let items := [mkPantryItem 1 "Milk" (Some 101); mkPantryItem 2 "Milk" None] in
  (exists item, In item items /\ expiring_soon 100 item)
  /\ map name (filter (fun item => negb (expiring_soonb 100 item)) items) = ["Milk"]
  /\ prompt_of 100 items = priority_prompt ["Milk"] []
  /\ prompt_of 100 items <>
     priority_prompt
       (map name (filter (expiring_soonb 100) items))
       (map name (filter (fun item => negb (expiring_soonb 100 item)) items)).
Proof.
  repeat split.
  - exists (mkPantryItem 1 "Milk" (Some 101)). split; [simpl; auto|].
    exists 101. split; [reflexivity | lia].
  - intros H. apply (f_equal String.length) in H. vm_compute in H. discriminate.
Qed.

(** ** Outcomes of the recipe endpoint *)

Section Outcomes.

Variable service : list ChatRequest -> ChatRequest -> string + string.
Variable markdown_markdown : string -> string + string.

Lemma generate_recipe_empty (w : World) :
  db w = [] ->
  generate_recipe service markdown_markdown w =
  (inl (mkHTTPException 400
          "Pantry is empty. Please add some ingredients first!"), w).
Proof.
  intros H. unfold generate_recipe, bind, query_all, raise.
  now rewrite H.
Qed.

(** A successful generation needs a non-empty pantry, a service that
    answers and a conversion that returns. *)
Lemma generate_recipe_success (w w' : World) (resp : RecipeResponse) :
  generate_recipe service markdown_markdown w = (inr resp, w') ->
  db w <> []
  /\ exists text,
       service (sent w) (chat_request (prompt_of (clock w) (db w))) = inr text
       /\ markdown_markdown text = inr (recipe resp).
Proof.
  intros H.
  assert (Hne : db w <> []).
  { intros E. rewrite (generate_recipe_empty w E) in H. discriminate. }
  split; [exact Hne|].
  rewrite (generate_recipe_nonempty _ _ w Hne) in H.
  destruct (service _ _) as [e|text]; [discriminate|].
  exists text. split; [reflexivity|].
  destruct (markdown_markdown text) as [e|html]; [discriminate|].
  injection H as <- _. reflexivity.
Qed.

(** The conversion to HTML is inside the [try] as well: when it raises,
    the outcome is the same 500 response, after the single call of
    [create]. *)
Lemma generate_recipe_markdown_failure (w : World) (text e : string) :
  db w <> [] ->
  let req := chat_request (prompt_of (clock w) (db w)) in
  service (sent w) req = inr text ->
  markdown_markdown text = inl e ->
  generate_recipe service markdown_markdown w =
  (inl (mkHTTPException 500 ("Failed to generate recipe: " ++ e)),
   log_request req w).
Proof.
  intros Hne req Hs Hm.
  rewrite (generate_recipe_nonempty _ _ w Hne). fold req.
  now rewrite Hs, Hm.
Qed.

End Outcomes.

(** C3: a successful generation reports [total_items] equal to the number
    of ingredients, and [items_used] equal to the number of expiring-soon
    items when there is at least one, and to [total_items] otherwise. *)
Theorem recipe_counts
    (service : list ChatRequest -> ChatRequest -> string + string)
    (markdown_markdown : string -> string + string)
    (w w' : World) (resp : RecipeResponse) :
  generate_recipe service markdown_markdown w = (inr resp, w') ->
  let expiring := filter (expiring_soonb (clock w)) (db w) in
  db w <> []
  /\ total_items resp = Z.of_nat (List.length (db w))
  /\ items_used resp =
       (if 0 <? Z.of_nat (List.length expiring)
        then Z.of_nat (List.length expiring)
        else total_items resp)
  /\ expiring_items resp = map name expiring.
Proof.
  intros H expiring.
  destruct (generate_recipe_success _ _ _ _ _ H) as [Hne _].
  split; [exact Hne|].
  rewrite (generate_recipe_nonempty _ _ w Hne) in H.
  destruct (service _ _) as [e|text]; [discriminate|].
  destruct (markdown_markdown text) as [e|html]; [discriminate|].
  injection H as <- _. cbn [total_items items_used expiring_items].
  fold expiring. rewrite List.length_map. split; [reflexivity|]. split; [|reflexivity].
  unfold count_used. destruct expiring as [|x l]; cbn [map].
  - now rewrite List.length_map.
  - cbn [List.length]. rewrite List.length_map.
    destruct (0 <? Z.of_nat (S (List.length l))) eqn:E; [reflexivity|].
    apply Z.ltb_ge in E. lia.
Qed.

Lemma recipe_counts_witness :
  let service := fun (_ : list ChatRequest) (_ : ChatRequest) =>
                   inr "Omelette" : string + string in
  let md := fun text : string => inr text : string + string in
  let w := mkWorld [mkPantryItem 1 "Eggs" (Some 101); mkPantryItem 2 "Rice" None]
                   100 [] in
  exists resp,
    fst (generate_recipe service md w) = inr resp
    /\ total_items resp = 2 /\ items_used resp = 1.
Proof.
  intros service md w.
  destruct (generate_recipe service md w) as [r w'] eqn:E.
  destruct r as [e|resp]; [vm_compute in E; discriminate|].
  exists resp. split; [reflexivity|].
  destruct (recipe_counts service md w w' resp E) as [_ [Ht [Hu _]]].
  split; [exact Ht|]. rewrite Hu. reflexivity.
Defined.

(** C4: with no stored item the recipe endpoint fails with status 400 and
    the empty-pantry detail, and nothing is sent to the text-generation
    service (the world, the log of the calls of [create] included, is as
    before). *)
Theorem empty_pantry_rejected
    (service : list ChatRequest -> ChatRequest -> string + string)
    (markdown_markdown : string -> string + string) (w : World) :
  db w = [] ->
  exists e,
    generate_recipe service markdown_markdown w = (inl e, w)
    /\ status_code e = 400
    /\ detail e = "Pantry is empty. Please add some ingredients first!"
    /\ sent (snd (generate_recipe service markdown_markdown w)) = sent w.
Proof.
  intros H. eexists. rewrite (generate_recipe_empty _ _ w H).
  repeat split.
Qed.

Lemma empty_pantry_rejected_witness :
  let service := fun (_ : list ChatRequest) (_ : ChatRequest) =>
                   inr "Omelette" : string + string in
  let md := fun text : string => inr text : string + string in
  exists e, generate_recipe service md (mkWorld [] 100 []) = (inl e, mkWorld [] 100 [])
            /\ status_code e = 400.
Proof.
  intros service md.
  destruct (empty_pantry_rejected service md (mkWorld [] 100 []) eq_refl)
    as [e [H [Hs _]]].
  exists e. split; assumption.
Defined.





(** C9: the recipe endpoint only reads the pantry: whatever the outcome
    (empty pantry, failed generation, success), the stored items after the
    request are the stored items before it. *)
Theorem generate_recipe_preserves_db
    (service : list ChatRequest -> ChatRequest -> string + string)
    (markdown_markdown : string -> string + string) (w : World) :
  db (snd (generate_recipe service markdown_markdown w)) = db w.
Proof.
  destruct (db w) as [|item items] eqn:Hdb.
  - rewrite (generate_recipe_empty _ _ w Hdb). exact Hdb.
  - assert (Hne : db w <> []) by (rewrite Hdb; discriminate).
    rewrite (generate_recipe_nonempty _ _ w Hne).
    destruct (service _ _) as [e|text]; [exact Hdb|].
    destruct (markdown_markdown text); exact Hdb.
Qed.

(** ** The pantry endpoints *)

Lemma find_id_none (item_id : Z) (rows : list PantryItem) :
  find (fun row => id row =? item_id) rows = None
  <-> forall row, In row rows -> id row <> item_id.
Proof.
  split.
  - intros H row Hin E.
    apply (find_none _ _ H) in Hin. apply Z.eqb_neq in Hin. contradiction.
  - intros H. destruct (find _ rows) as [row|] eqn:E; [|reflexivity].
    apply find_some in E. destruct E as [Hin E]. apply Z.eqb_eq in E.
    now apply H in Hin.
Qed.

Lemma filter_all {A : Type} (f : A -> bool) (l : list A) :
  (forall x, In x l -> f x = true) -> filter f l = l.
Proof.
  induction l as [|a l IH]; intros H; [reflexivity|].
  cbn [filter]. rewrite (H a (or_introl eq_refl)). f_equal.
  apply IH. intros x Hx. apply H. now right.
Qed.

(** With unique ids, deleting by the id of a stored row takes out that row
    and nothing else. *)
Lemma filter_other_ids (before after : list PantryItem) (item : PantryItem) :
  unique_ids (before ++ item :: after) ->
  filter (fun row => negb (id row =? id item)) (before ++ item :: after) =
  (before ++ after)%list.
Proof.
  unfold unique_ids. rewrite map_app. cbn [map]. intros Hu.
  pose proof (NoDup_remove_2 _ _ _ Hu) as Hnot.
  rewrite filter_app. cbn [filter]. rewrite Z.eqb_refl. cbn [negb].
  rewrite !filter_all; [reflexivity | |].
  - intros x Hx. apply negb_true_iff, Z.eqb_neq. intros E.
    apply Hnot, in_or_app. right. rewrite <- E. now apply in_map.
  - intros x Hx. apply negb_true_iff, Z.eqb_neq. intros E.
    apply Hnot, in_or_app. left. rewrite <- E. now apply in_map.
Qed.

Lemma find_unique (rows : list PantryItem) (item : PantryItem) :
  unique_ids rows -> In item rows ->
  find (fun row => id row =? id item) rows = Some item.
Proof.
  unfold unique_ids.
  induction rows as [|r rows IH]; intros Hu Hin; [contradiction|].
  cbn [map] in Hu. apply NoDup_cons_iff in Hu. destruct Hu as [Hr Hu].
  cbn [find]. destruct (id r =? id item) eqn:E.
  - destruct Hin as [->|Hin]; [reflexivity|].
    apply Z.eqb_eq in E. exfalso. apply Hr. rewrite E. now apply in_map.
  - destruct Hin as [->|Hin]; [now rewrite Z.eqb_refl in E|].
    now apply IH.
Qed.

Lemma unique_ids_filter (f : PantryItem -> bool) (rows : list PantryItem) :
  unique_ids rows -> unique_ids (filter f rows).
Proof.
  unfold unique_ids. induction rows as [|r rows IH]; intros Hu; [exact Hu|].
  cbn [map] in Hu. apply NoDup_cons_iff in Hu. destruct Hu as [Hr Hu].
  cbn [filter]. destruct (f r); [|now apply IH].
  cbn [map]. apply NoDup_cons; [|now apply IH].
  intros Hin. apply Hr. apply in_map_iff in Hin. destruct Hin as [x [E Hx]].
  apply filter_In in Hx. rewrite <- E. apply in_map. tauto.
Qed.

(** The three writing endpoints keep the ids unique, provided the database
    gives a fresh id to a new row. *)
Lemma unique_ids_preserved (next_id : list PantryItem -> Z) :
  (forall rows, ~ In (next_id rows) (map id rows)) ->
  forall w, unique_ids (db w) ->
    (forall item, unique_ids (db (snd (add_pantry_item next_id item w))))
    /\ (forall item_id, unique_ids (db (snd (delete_pantry_item item_id w))))
    /\ unique_ids (db (snd (clear_pantry w))).
Proof.
  intros Hfresh w Hu. repeat split.
  - intros item. cbn. unfold unique_ids. rewrite map_app. cbn [map].
    apply (Permutation_NoDup (Permutation_cons_append _ _)).
    apply NoDup_cons; [apply Hfresh | exact Hu].
  - intros item_id. unfold delete_pantry_item, bind, query_filter_id_first.
    destruct (find _ (db w)); cbn; [now apply unique_ids_filter | exact Hu].
  - cbn. constructor.
Qed.

(** C6: delete-by-id answers 404 if and only if no stored item has the id,
    and then changes nothing; when an item with the id is stored, the
    request succeeds and takes exactly that record out of the table: a
    following list-all does not contain it and contains every other item. *)
Theorem delete_by_id (item_id : Z) (w : World) :
  unique_ids (db w) ->
  let r := fst (delete_pantry_item item_id w) in
  let w' := snd (delete_pantry_item item_id w) in
  ((exists e, r = inl e /\ status_code e = 404)
     <-> forall row, In row (db w) -> id row <> item_id)
  /\ ((forall row, In row (db w) -> id row <> item_id) ->
      r = inl (mkHTTPException 404 "Item not found") /\ w' = w)
  /\ forall item, In item (db w) -> id item = item_id ->
       r = inr [("message", JStr "Item deleted successfully"); ("id", JInt item_id)]
       /\ (exists before after,
             db w = (before ++ item :: after)%list
             /\ db w' = (before ++ after)%list)
       /\ fst (get_pantry_items w') = inr (db w')
       /\ ~ In item (db w')
       /\ (forall row, In row (db w') -> id row <> item_id)
       /\ (forall other, In other (db w) -> other <> item -> In other (db w')).
Proof.
  intros Hu r w'.
  assert (Hnone : (forall row, In row (db w) -> id row <> item_id) ->
                  r = inl (mkHTTPException 404 "Item not found") /\ w' = w).
  { intros H. apply find_id_none in H. subst r w'.
    unfold delete_pantry_item, bind, query_filter_id_first.
    now rewrite H. }
  assert (Hsome : forall item, In item (db w) -> id item = item_id ->
            r = inr [("message", JStr "Item deleted successfully");
                     ("id", JInt item_id)]
            /\ db w' = filter (fun row => negb (id row =? id item)) (db w)).
  { intros item Hin <-. subst r w'.
    unfold delete_pantry_item, bind, query_filter_id_first.
    rewrite (find_unique _ _ Hu Hin). split; reflexivity. }
  split; [|split; [exact Hnone|]].
  - split.
    + intros [e [He Hs]] row Hin E.
      destruct (Hsome row Hin E) as [Hr _]. congruence.
    + intros H. destruct (Hnone H) as [Hr _]. rewrite Hr. eexists.
      split; reflexivity.
  - intros item Hin E. destruct (Hsome item Hin E) as [Hr Hdb].
    split; [exact Hr|].
    destruct (in_split _ _ Hin) as [before [after Hsplit]].
    assert (Hdb' : db w' = (before ++ after)%list).
    { rewrite Hdb, Hsplit. apply filter_other_ids. now rewrite <- Hsplit. }
    split; [now exists before, after|].
    split; [reflexivity|].
    assert (Hgone : forall row, In row (db w') -> id row <> item_id).
    { intros row Hrow. rewrite Hdb in Hrow. apply filter_In in Hrow.
      destruct Hrow as [_ Hrow]. apply negb_true_iff, Z.eqb_neq in Hrow.
      congruence. }
    split; [|split; [exact Hgone|]].
    + intros Hin'. now apply Hgone in Hin'.
    + intros other Ho Hne. rewrite Hdb', Hsplit in *.
      apply in_app_or in Ho. apply in_or_app.
      destruct Ho as [Ho|[Ho|Ho]]; [now left | congruence | now right].
Qed.

Lemma delete_by_id_witness :
  let eggs := mkPantryItem 1 "Eggs" (Some 101) in
  let rice := mkPantryItem 2 "Rice" None in
  let w := mkWorld [eggs; rice] 100 [] in
  fst (delete_pantry_item 7 w) = inl (mkHTTPException 404 "Item not found")
  /\ ~ In eggs (db (snd (delete_pantry_item 1 w)))
  /\ In rice (db (snd (delete_pantry_item 1 w))).
Proof.
  intros eggs rice w.
  assert (Hu : unique_ids (db w)).
  { unfold unique_ids. cbn. repeat constructor; cbn; intuition discriminate. }
  split; [|split].
  - apply (proj1 (proj2 (delete_by_id 7 w Hu))).
    intros row [<-|[<-|[]]]; discriminate.
  - apply (proj2 (proj2 (delete_by_id 1 w Hu)) eggs); [cbn; auto | reflexivity].
  - apply (proj2 (proj2 (delete_by_id 1 w Hu)) eggs);
      [cbn; auto | reflexivity | cbn; auto | discriminate].
Defined.

(** C7 (as amended): whatever the N stored items, clear-all removes all of
    them and a following list-all returns the empty sequence; the bulk
    delete it issues returns N, but the result of the operation is the
    fixed body with the message "Pantry cleared", the same for every N. *)
Theorem clear_pantry_removes_all (w : World) :
  clear_pantry w = (inr [("message", JStr "Pantry cleared")], set_db [] w)
  /\ get_pantry_items (snd (clear_pantry w)) = (inr [], set_db [] w)
  /\ fst (@query_delete HTTPException w) = inr (Z.of_nat (List.length (db w)))
  /\ forall w2, fst (clear_pantry w2) = fst (clear_pantry w).
Proof. repeat split. Qed.

(** C7, as stated, fails: after clearing a pantry of two items the result
    has no field holding the number 2, and it is the result obtained for a
    pantry of one item. *)
Lemma clear_pantry_counterexample :
  let eggs := mkPantryItem 1 "Eggs" (Some 101) in
  let rice := mkPantryItem 2 "Rice" None in
  let w := mkWorld [eggs; rice] 100 [] in
  db (snd (clear_pantry w)) = []
  /\ ~ reports_count (Z.of_nat (List.length (db w))) (fst (clear_pantry w))
  /\ fst (clear_pantry w) = fst (clear_pantry (mkWorld [eggs] 100 [])).
Proof.
  intros eggs rice w. split; [reflexivity|]. split; [|reflexivity].
  intros [resp [key [E Hin]]]. cbn in E. injection E as <-.
  destruct Hin as [Hin|[]]. discriminate.
Qed.

(** C8: a GET of the item list changes nothing, so two consecutive GETs
    with no write in between return the same items. *)
Theorem get_pantry_items_repeatable (w : World) :
  let first := get_pantry_items w in
  let second := get_pantry_items (snd first) in
  fst first = fst second
  /\ fst first = inr (db w)
  /\ snd first = w
  /\ snd second = w.
Proof. repeat split. Qed.

(** C10: clear-all on an empty pantry succeeds with the body
    [{"message": "Pantry cleared"}] and leaves the pantry empty. *)
Theorem clear_empty_pantry (today : date) (requests : list ChatRequest) :
  clear_pantry (mkWorld [] today requests) =
  (inr [("message", JStr "Pantry cleared")], mkWorld [] today requests).
Proof. reflexivity. Qed.


(** ** Further properties of the pantry endpoints *)

Lemma set_db_same (w : World) : set_db (db w) w = w.
Proof. destruct w. reflexivity. Qed.

Lemma find_id_app_fresh (rows : list PantryItem) (row : PantryItem) :
  ~ In (id row) (map id rows) ->
  find (fun r => id r =? id row) (rows ++ [row]) = Some row.
Proof.
  intros Hfresh. induction rows as [|r rows IH]; cbn [app find].
  - now rewrite Z.eqb_refl.
  - cbn [map] in Hfresh. destruct (id r =? id row) eqn:E.
    + apply Z.eqb_eq in E. exfalso. apply Hfresh. now left.
    + apply IH. intros H. apply Hfresh. now right.
Qed.

Lemma next_after_max_fresh (rows : list PantryItem) :
  ~ In (next_after_max rows) (map id rows).
Proof.
  unfold next_after_max. intros H.
  assert (Hle : forall x l, In x l -> x <= fold_right Z.max 0 l).
  { intros x l. induction l as [|a l IH]; intros Hin; [contradiction|].
    cbn [fold_right]. destruct Hin as [->|Hin]; [lia|].
    apply IH in Hin. lia. }
  apply Hle in H. lia.
Qed.

(** Adding an item never fails: the new row has the name and the expiry
    date of the request, it is the row returned, and a following list-all
    returns the rows stored before, in their order, followed by it. *)
Theorem add_then_list (next_id : list PantryItem -> Z)
    (item : PantryItemCreate) (w : World) :
  let row := mkPantryItem (next_id (db w)) (new_name item) (new_expiry_date item) in
  let w' := snd (add_pantry_item next_id item w) in
  fst (add_pantry_item next_id item w) = inr row
  /\ get_pantry_items w' = (inr (db w ++ [row])%list, w')
  /\ List.length (db w') = S (List.length (db w))
  /\ forall old, In old (db w) -> In old (db w').
Proof.
  intros row w'. subst w'. cbn. repeat split.
  - rewrite length_app. cbn. lia.
  - intros old H. apply in_or_app. now left.
Qed.

(** When the id given to a new row is not in use, deleting the row by the
    id the add returned succeeds and gives back the world as it was before
    the add. *)
Theorem add_then_delete (next_id : list PantryItem -> Z)
    (item : PantryItemCreate) (w : World) :
  ~ In (next_id (db w)) (map id (db w)) ->
  let new_id := next_id (db w) in
  delete_pantry_item new_id (snd (add_pantry_item next_id item w)) =
  (inr [("message", JStr "Item deleted successfully"); ("id", JInt new_id)], w).
Proof.
  intros Hfresh new_id. subst new_id.
  set (row := mkPantryItem (next_id (db w)) (new_name item) (new_expiry_date item)).
  unfold delete_pantry_item, bind, query_filter_id_first. cbn [add_pantry_item].
  change (snd (add_pantry_item next_id item w)) with (set_db (db w ++ [row]) w).
  cbn [db set_db].
  change (next_id (db w)) with (id row) at 1.
  rewrite (find_id_app_fresh (db w) row Hfresh).
  cbn. rewrite filter_app. cbn [filter id row]. rewrite Z.eqb_refl. cbn [negb].
  rewrite app_nil_r, filter_all.
  - destruct w. reflexivity.
  - intros x Hx. apply negb_true_iff, Z.eqb_neq. intros E.
    apply Hfresh. rewrite <- E. now apply in_map.
Qed.

Lemma add_then_delete_witness :
  let w := mkWorld [mkPantryItem 1 "Eggs" (Some 101)] 100 [] in
  let milk := mkPantryItemCreate "Milk" None in
  delete_pantry_item 2 (snd (add_pantry_item next_after_max milk w)) =
  (inr [("message", JStr "Item deleted successfully"); ("id", JInt 2)], w).
Proof.
  intros w milk.
  apply (add_then_delete next_after_max milk w).
  cbn. intros [H|[]]. discriminate.
Defined.

(** A second delete of the same id answers 404: when some stored row has
    the id, the first delete succeeds and leaves no row with that id, so
    the same request again raises "Item not found" and changes nothing. *)
Theorem delete_twice (item_id : Z) (w : World) :
  (exists row, In row (db w) /\ id row = item_id) ->
  let w1 := snd (delete_pantry_item item_id w) in
  fst (delete_pantry_item item_id w) =
    inr [("message", JStr "Item deleted successfully"); ("id", JInt item_id)]
  /\ (forall row, In row (db w1) -> id row <> item_id)
  /\ delete_pantry_item item_id w1 =
     (inl (mkHTTPException 404 "Item not found"), w1).
Proof.
  intros [row [Hin Hid]] w1.
  destruct (find (fun r => id r =? item_id) (db w)) as [found|] eqn:Ef.
  2:{ exfalso. exact (proj1 (find_id_none _ _) Ef row Hin Hid). }
  pose proof (find_some _ _ Ef) as [_ Hf]. apply Z.eqb_eq in Hf.
  assert (Hdb : db w1 = filter (fun r => negb (id r =? item_id)) (db w)).
  { subst w1. unfold delete_pantry_item, bind, query_filter_id_first.
    rewrite Ef. cbn. now rewrite Hf. }
  assert (Hgone : forall r, In r (db w1) -> id r <> item_id).
  { intros r Hr. rewrite Hdb in Hr. apply filter_In in Hr.
    destruct Hr as [_ Hr]. now apply negb_true_iff, Z.eqb_neq in Hr. }
  split; [|split; [exact Hgone|]].
  - unfold delete_pantry_item, bind, query_filter_id_first. now rewrite Ef.
  - apply (proj2 (find_id_none _ _)) in Hgone.
    unfold delete_pantry_item, bind, query_filter_id_first. now rewrite Hgone.
Qed.

Lemma delete_twice_witness :
  let w := mkWorld [mkPantryItem 1 "Eggs" (Some 101); mkPantryItem 2 "Rice" None]
                   100 [] in
  let w1 := snd (delete_pantry_item 2 w) in
  delete_pantry_item 2 w1 = (inl (mkHTTPException 404 "Item not found"), w1).
Proof.
  intros w w1.
  apply (proj2 (proj2 (delete_twice 2 w
    (ex_intro _ (mkPantryItem 2 "Rice" None) (conj (or_intror (or_introl eq_refl)) eq_refl))))).
Defined.

Lemma unique_ids_preserved_witness :
  let w := mkWorld [mkPantryItem 1 "Eggs" (Some 101)] 100 [] in
  unique_ids (db (snd (add_pantry_item next_after_max
                         (mkPantryItemCreate "Milk" None) w))).
Proof.
  intros w.
  apply (proj1 (unique_ids_preserved next_after_max next_after_max_fresh w
                  (NoDup_cons 1 (fun H : In 1 [] => H) (NoDup_nil Z)))).
Defined.

(** After clear-all the pantry behaves as an empty one: clearing again
    gives the same answer and changes nothing, deleting any id answers 404,
    and the recipe endpoint answers 400 without sending a request. *)
Theorem after_clear
    (service : list ChatRequest -> ChatRequest -> string + string)
    (markdown_markdown : string -> string + string) (w : World) :
  let w0 := snd (clear_pantry w) in
  clear_pantry w0 = (fst (clear_pantry w), w0)
  /\ (forall item_id,
        delete_pantry_item item_id w0 =
        (inl (mkHTTPException 404 "Item not found"), w0))
  /\ generate_recipe service markdown_markdown w0 =
     (inl (mkHTTPException 400
             "Pantry is empty. Please add some ingredients first!"), w0)
  /\ sent w0 = sent w.
Proof. repeat split. Qed.

(** The pantry endpoints never call the text-generation service and never
    touch the clock: only the table can differ after add, list, delete or
    clear. *)
Theorem pantry_endpoints_send_nothing (next_id : list PantryItem -> Z) (w : World) :
  (forall item,
     snd (add_pantry_item next_id item w) =
     set_db (db (snd (add_pantry_item next_id item w))) w)
  /\ snd (get_pantry_items w) = w
  /\ (forall item_id,
        snd (delete_pantry_item item_id w) =
        set_db (db (snd (delete_pantry_item item_id w))) w)
  /\ snd (clear_pantry w) = set_db [] w.
Proof.
  repeat split.
  intros item_id. unfold delete_pantry_item, bind, query_filter_id_first.
  destruct (find _ (db w)); cbn; [reflexivity|].
  symmetry. apply set_db_same.
Qed.

(** ** Properties of the process start *)

Lemma append_assoc (a b c : string) : (a ++ b) ++ c = a ++ (b ++ c).
Proof. induction a as [|ch a IH]; cbn; [reflexivity | now rewrite IH]. Qed.

Lemma append_empty_r (a : string) : a ++ EmptyString = a.
Proof. induction a as [|ch a IH]; cbn; [reflexivity | now rewrite IH]. Qed.

Lemma occurs_in_suffix (pre s : string) : occurs_in s (pre ++ s).
Proof. exists pre, EmptyString. now rewrite append_empty_r. Qed.

(** The key is accepted exactly when the variable is set to a non-empty
    string; an unset and an empty key both stop the start with an exception
    whose message names the path of the .env file. *)
Theorem load_api_key_accepts (api_key : option string) (env_path key : string) :
  (load_api_key api_key env_path = inr key
     <-> api_key = Some key /\ key <> EmptyString)
  /\ (api_key = None \/ api_key = Some EmptyString ->
      exists e, load_api_key api_key env_path = inl e
                /\ occurs_in env_path (str e)).
Proof.
  split.
  - split.
    + destruct api_key as [[|c k]|]; cbn; intros H; try discriminate.
      injection H as <-. split; [reflexivity | discriminate].
    + intros [-> Hne]. destruct key; [contradiction | reflexivity].
  - intros [->| ->]; unfold load_api_key; eexists; (split; [reflexivity|]);
      cbn [str]; apply occurs_in_suffix.
Qed.

Lemma load_api_key_accepts_witness :
  load_api_key (Some "sk-test") "/app/.env" = inr "sk-test"
  /\ exists e, load_api_key (Some EmptyString) "/app/.env" = inl e
               /\ occurs_in "/app/.env" (str e).
Proof.
  split.
  - apply (proj1 (load_api_key_accepts (Some "sk-test") "/app/.env" "sk-test")).
    split; [reflexivity | discriminate].
  - apply (proj2 (load_api_key_accepts (Some EmptyString) "/app/.env" "sk-test")).
    right. reflexivity.
Defined.


(** ** Further properties of the recipe endpoint *)

(** The response of a successful generation, field by field. *)
Lemma generate_recipe_response
    (service : list ChatRequest -> ChatRequest -> string + string)
    (markdown_markdown : string -> string + string)
    (w w' : World) (resp : RecipeResponse) :
  generate_recipe service markdown_markdown w = (inr resp, w') ->
  db w <> []
  /\ expiring_items resp = map name (filter (expiring_soonb (clock w)) (db w))
  /\ total_items resp = Z.of_nat (List.length (db w))
  /\ items_used resp = count_used (expiring_items resp) (map name (db w))
  /\ w' = log_request (chat_request (prompt_of (clock w) (db w))) w.
Proof.
  intros H.
  destruct (generate_recipe_success _ _ _ _ _ H) as [Hne _].
  split; [exact Hne|].
  rewrite (generate_recipe_nonempty _ _ w Hne) in H.
  destruct (service _ _) as [e|text]; [discriminate|].
  destruct (markdown_markdown text) as [e|html]; [discriminate|].
  injection H as <- <-. cbn [expiring_items total_items items_used].
  rewrite List.length_map. repeat split.
Qed.

(** The recipe endpoint does not call [create] when the pantry is empty
    and calls it exactly once otherwise, whatever the outcome; the call
    carries the prompt built from the stored items and the date of the
    clock. *)
Theorem generate_recipe_requests
    (service : list ChatRequest -> ChatRequest -> string + string)
    (markdown_markdown : string -> string + string) (w : World) :
  let w' := snd (generate_recipe service markdown_markdown w) in
  sent w' =
    match db w with
    | [] => sent w
    | _ :: _ => (sent w ++ [chat_request (prompt_of (clock w) (db w))])%list
    end
  /\ clock w' = clock w.
Proof.
  intros w'. subst w'. destruct (db w) as [|item items] eqn:Hdb.
  - rewrite (generate_recipe_empty _ _ w Hdb). split; reflexivity.
  - assert (Hne : db w <> []) by (rewrite Hdb; discriminate).
    rewrite (generate_recipe_nonempty _ _ w Hne), Hdb.
    destruct (service _ _) as [e|text]; [split; reflexivity|].
    destruct (markdown_markdown text); split; reflexivity.
Qed.

(** The only errors of the recipe endpoint are the 400 of the empty pantry
    and the 500 of a failed generation: an error on a non-empty pantry is a
    500 whose detail is "Failed to generate recipe: " followed by what the
    service call or the conversion to HTML raised. *)
Theorem generate_recipe_errors
    (service : list ChatRequest -> ChatRequest -> string + string)
    (markdown_markdown : string -> string + string)
    (w : World) (e : HTTPException) :
  fst (generate_recipe service markdown_markdown w) = inl e ->
  let req := chat_request (prompt_of (clock w) (db w)) in
  (db w = []
   /\ e = mkHTTPException 400 "Pantry is empty. Please add some ingredients first!")
  \/ (db w <> []
      /\ exists reason,
           e = mkHTTPException 500 ("Failed to generate recipe: " ++ reason)
           /\ (service (sent w) req = inl reason
               \/ exists text, service (sent w) req = inr text
                               /\ markdown_markdown text = inl reason)).
Proof.
  intros H. cbv zeta. destruct (db w) as [|item items] eqn:Hdb.
  - left. rewrite (generate_recipe_empty _ _ w Hdb) in H. cbn [fst] in H.
    injection H as <-. split; reflexivity.
  - right. assert (Hne : db w <> []) by (rewrite Hdb; discriminate).
    rewrite <- Hdb in *. split; [exact Hne|].
    rewrite (generate_recipe_nonempty _ _ w Hne) in H.
    destruct (service (sent w) _) as [reason|text].
    + cbn [fst] in H. injection H as <-.
      exists reason. split; [reflexivity | now left].
    + destruct (markdown_markdown text) as [reason|html] eqn:Em;
        cbn [fst] in H; [|discriminate].
      injection H as <-. exists reason. split; [reflexivity|].
      right. exists text. split; [reflexivity | exact Em].
Qed.

Lemma generate_recipe_errors_witness :
  let service := fun (_ : list ChatRequest) (_ : ChatRequest) =>
                   inr "# Omelette" : string + string in
  let md := fun _ : string => inl "bad markup" : string + string in
  let w := mkWorld [mkPantryItem 1 "Eggs" (Some 101)] 100 [] in
  fst (generate_recipe service md w) =
  inl (mkHTTPException 500 "Failed to generate recipe: bad markup").
Proof.
  intros service md w.
  destruct (generate_recipe_errors service md w
              (mkHTTPException 500 "Failed to generate recipe: bad markup")
              eq_refl) as [[H _]|_].
  - discriminate.
  - reflexivity.
Defined.

Lemma generate_recipe_markdown_failure_witness :
  let service := fun (_ : list ChatRequest) (_ : ChatRequest) =>
                   inr "# Omelette" : string + string in
  let md := fun _ : string => inl "bad markup" : string + string in
  let w := mkWorld [mkPantryItem 1 "Eggs" (Some 101)] 100 [] in
  generate_recipe service md w =
  (inl (mkHTTPException 500 "Failed to generate recipe: bad markup"),
   log_request (chat_request (prompt_of 100 (db w))) w).
Proof.
  intros service md w.
  apply (generate_recipe_markdown_failure service md w "# Omelette" "bad markup").
  - discriminate.
  - reflexivity.
  - reflexivity.
Defined.

(** The recipe endpoint succeeds with the HTML [html] exactly when the
    pantry is not empty, the service returns a text, and the conversion of
    that text returns [html]. *)
Theorem generate_recipe_succeeds_iff
    (service : list ChatRequest -> ChatRequest -> string + string)
    (markdown_markdown : string -> string + string)
    (w : World) (html : string) :
  (exists resp w',
     generate_recipe service markdown_markdown w = (inr resp, w')
     /\ recipe resp = html)
  <-> (db w <> []
       /\ exists text,
            service (sent w) (chat_request (prompt_of (clock w) (db w))) = inr text
            /\ markdown_markdown text = inr html).
Proof.
  split.
  - intros [resp [w' [H <-]]]. exact (generate_recipe_success _ _ _ _ _ H).
  - intros [Hne [text [Hs Hm]]].
    rewrite (generate_recipe_nonempty _ _ w Hne), Hs, Hm.
    do 2 eexists. split; reflexivity.
Qed.

Lemma generate_recipe_succeeds_iff_witness :
  let service := fun (_ : list ChatRequest) (_ : ChatRequest) =>
                   inr "Omelette" : string + string in
  let md := fun text : string => inr ("<p>" ++ text ++ "</p>") : string + string in
  let w := mkWorld [mkPantryItem 1 "Eggs" (Some 101)] 100 [] in
  exists resp w',
    generate_recipe service md w = (inr resp, w')
    /\ recipe resp = "<p>Omelette</p>".
Proof.
  intros service md w.
  apply (proj2 (generate_recipe_succeeds_iff service md w "<p>Omelette</p>")).
  split; [discriminate|]. exists "Omelette". split; reflexivity.
Defined.

Lemma filter_none {A : Type} (f : A -> bool) (l : list A) :
  (forall x, In x l -> f x = false) -> filter f l = [].
Proof.
  induction l as [|a l IH]; intros H; [reflexivity|].
  cbn [filter]. rewrite (H a (or_introl eq_refl)).
  apply IH. intros x Hx. apply H. now right.
Qed.

Lemma not_expiring_soonb (today : date) (item : PantryItem) :
  expiring_soonb today item = false <-> ~ expiring_soon today item.
Proof.
  rewrite <- expiring_soonb_spec. destruct (expiring_soonb today item).
  - split; [discriminate | intros H; now contradiction H].
  - split; [discriminate | reflexivity].
Qed.

(** When no stored item is expiring soon, the prompt is the plain one,
    listing every ingredient in encounter order under AVAILABLE
    INGREDIENTS; a successful response then has no expiring items and
    [items_used] equal to [total_items]. *)
Theorem nothing_expiring (today : date) (items : list PantryItem) :
  (forall item, In item items -> ~ expiring_soon today item) ->
  prompt_of today items = plain_prompt (map name items)
  /\ forall service markdown_markdown w w' resp,
       db w = items -> clock w = today ->
       generate_recipe service markdown_markdown w = (inr resp, w') ->
       expiring_items resp = []
       /\ items_used resp = total_items resp
       /\ total_items resp = Z.of_nat (List.length items).
Proof.
  intros Hnone.
  assert (Hf : filter (expiring_soonb today) items = []).
  { apply filter_none. intros x Hx. now apply not_expiring_soonb, Hnone. }
  split.
  - rewrite prompt_of_eq, Hf. reflexivity.
  - intros service md w w' resp Hdb Hclock H.
    destruct (generate_recipe_response _ _ _ _ _ H) as [_ [He [Ht [Hu _]]]].
    rewrite Hdb, Hclock, Hf in He. cbn [map] in He.
    rewrite He in Hu. cbn [count_used] in Hu.
    rewrite List.length_map in Hu. rewrite Hdb in Ht.
    repeat split; congruence.
Qed.

Lemma nothing_expiring_witness :
  let items := [mkPantryItem 1 "Flour" (Some 130); mkPantryItem 2 "Rice" None] in
  prompt_of 100 items = plain_prompt ["Flour"; "Rice"].
Proof.
  intros items. refine (proj1 (nothing_expiring 100 items _)).
  intros item [<-|[<-|[]]] [d [Hd Hle]]; cbn in Hd.
  - injection Hd as <-. lia.
  - discriminate.
Defined.

(** In a successful response [items_used] is at least 1 and at most
    [total_items], there are at most [total_items] expiring items, and
    every name among them is the name of a stored item that is expiring
    soon. *)
Theorem recipe_response_bounds
    (service : list ChatRequest -> ChatRequest -> string + string)
    (markdown_markdown : string -> string + string)
    (w w' : World) (resp : RecipeResponse) :
  generate_recipe service markdown_markdown w = (inr resp, w') ->
  1 <= items_used resp <= total_items resp
  /\ Z.of_nat (List.length (expiring_items resp)) <= total_items resp
  /\ forall n, In n (expiring_items resp) ->
       exists item, In item (db w) /\ name item = n
                    /\ expiring_soon (clock w) item.
Proof.
  intros H.
  destruct (generate_recipe_response _ _ _ _ _ H) as [Hne [He [Ht [Hu _]]]].
  assert (Hlen : (List.length (expiring_items resp) <= List.length (db w))%nat).
  { rewrite He, List.length_map. apply filter_length_le. }
  assert (Hpos : (0 < List.length (db w))%nat).
  { destruct (db w); [contradiction | cbn; lia]. }
  split; [|split].
  - rewrite Hu, Ht. unfold count_used.
    destruct (expiring_items resp) as [|x l].
    + rewrite List.length_map. lia.
    + cbn [List.length] in *. lia.
  - rewrite Ht. lia.
  - intros n Hn. rewrite He in Hn. apply in_map_iff in Hn.
    destruct Hn as [item [Hname Hin]]. apply filter_In in Hin.
    exists item. split; [tauto|]. split; [exact Hname|].
    now apply expiring_soonb_spec.
Qed.

Lemma recipe_response_bounds_witness :
  let service := fun (_ : list ChatRequest) (_ : ChatRequest) =>
                   inr "Omelette" : string + string in
  let md := fun text : string => inr text : string + string in
  let w := mkWorld [mkPantryItem 1 "Eggs" (Some 101); mkPantryItem 2 "Rice" None]
                   100 [] in
  exists resp, fst (generate_recipe service md w) = inr resp
               /\ 1 <= items_used resp <= total_items resp.
Proof.
  intros service md w.
  destruct (generate_recipe service md w) as [r w'] eqn:E.
  destruct r as [e|resp]; [vm_compute in E; discriminate|].
  exists resp. split; [reflexivity|].
  exact (proj1 (recipe_response_bounds service md w w' resp E)).
Defined.

(** The two sections of the priority prompt split the ingredient names:
    every stored item's name is under MUST USE or under ALSO AVAILABLE, no
    name is under both, and a name under ALSO AVAILABLE is the name of a
    stored item that is not expiring soon. *)
Theorem sections_cover_names (today : date) (items : list PantryItem) :
  let must_use := fst (scan today items) in
  let also_available := not_in_expiring must_use (snd (scan today items)) in
  (forall item, In item items ->
     In (name item) must_use \/ In (name item) also_available)
  /\ (forall n, In n also_available -> ~ In n must_use)
  /\ (forall n, In n also_available ->
        exists item, In item items /\ name item = n
                     /\ ~ expiring_soon today item).
Proof.
  rewrite scan_spec. cbn [fst snd]. unfold not_in_expiring.
  set (must_use := map name (filter (expiring_soonb today) items)).
  split; [|split].
  - intros item Hin. destruct (str_in (name item) must_use) eqn:E.
    + left. now apply str_in_iff.
    + right. apply filter_In. split; [now apply in_map | now rewrite E].
  - intros n Hn Hm. apply filter_In in Hn. destruct Hn as [_ Hn].
    apply str_in_iff in Hm. now rewrite Hm in Hn.
  - intros n Hn. apply filter_In in Hn. destruct Hn as [Hall Hn].
    apply in_map_iff in Hall. destruct Hall as [item [Hname Hin]].
    exists item. split; [exact Hin|]. split; [exact Hname|].
    intros Hexp. apply expiring_soonb_spec in Hexp.
    apply negb_true_iff in Hn.
    assert (Hs : str_in n must_use = true).
    { apply str_in_iff. subst must_use. rewrite <- Hname. apply in_map.
      apply filter_In. auto. }
    congruence.
Qed.

Lemma sections_cover_names_witness :
  let items := [mkPantryItem 1 "Milk" (Some 101); mkPantryItem 2 "Milk" None;
                mkPantryItem 3 "Rice" None] in
  ~ In "Rice" (fst (scan 100 items)).
Proof.
  intros items.
  apply (proj1 (proj2 (sections_cover_names 100 items)) "Rice").
  cbn. left. reflexivity.
Defined.

(** An item that is expiring soon on some day is expiring soon on every
    later day, so the names marked on a day are all marked on a later
    day. *)
Theorem expiring_soon_monotone (today later : date) (item : PantryItem) :
  today <= later ->
  (expiring_soon today item -> expiring_soon later item)
  /\ forall items n,
       In n (fst (scan today items)) -> In n (fst (scan later items)).
Proof.
  intros Hle.
  assert (Hmono : forall it, expiring_soon today it -> expiring_soon later it).
  { intros it [d [Hd H]]. exists d. split; [exact Hd | lia]. }
  split; [apply Hmono|].
  intros items n. rewrite !scan_spec. cbn [fst]. rewrite !in_map_iff.
  intros [it [Hname Hin]]. exists it. split; [exact Hname|].
  apply filter_In in Hin. apply filter_In. split; [tauto|].
  apply expiring_soonb_spec, Hmono, expiring_soonb_spec. tauto.
Qed.

Lemma expiring_soon_monotone_witness :
  In "Flour" (fst (scan 110 [mkPantryItem 1 "Flour" (Some 103)])).
Proof.
  refine (proj2 (expiring_soon_monotone 100 110 (mkPantryItem 1 "Flour" (Some 103)) _)
            [mkPantryItem 1 "Flour" (Some 103)] "Flour" _).
  - lia.
  - cbn. left. reflexivity.
Defined.


(** ** What the prompt contains *)

Lemma occurs_in_refl (s : string) : occurs_in s s.
Proof. exists EmptyString, EmptyString. cbn. now rewrite append_empty_r. Qed.

Lemma occurs_in_app_r (s a t : string) : occurs_in s t -> occurs_in s (a ++ t).
Proof.
  intros [pre [post ->]]. exists (a ++ pre), post. now rewrite append_assoc.
Qed.

Lemma occurs_in_app_l (s t b : string) : occurs_in s t -> occurs_in s (t ++ b).
Proof.
  intros [pre [post ->]]. exists pre, (post ++ b). now rewrite !append_assoc.
Qed.

Lemma occurs_in_trans (s t u : string) :
  occurs_in s t -> occurs_in t u -> occurs_in s u.
Proof.
  intros Hst [pre [post ->]]. now apply occurs_in_app_r, occurs_in_app_l.
Qed.

(** Every element of a list occurs in the list joined by a separator. *)
Lemma occurs_in_join (sep x : string) (xs : list string) :
  In x xs -> occurs_in x (join sep xs).
Proof.
  unfold join. induction xs as [|a xs IH]; intros Hin; [contradiction|].
  destruct xs as [|b xs].
  - destruct Hin as [->|[]]. apply occurs_in_refl.
  - change (String.concat sep (a :: b :: xs))
      with (a ++ sep ++ String.concat sep (b :: xs)).
    destruct Hin as [->|Hin].
    + apply occurs_in_app_l, occurs_in_refl.
    + now apply occurs_in_app_r, occurs_in_app_r, IH.
Qed.

(** Whatever the dates, the name of every stored item occurs in the
    prompt. *)
Theorem names_occur_in_prompt (today : date) (items : list PantryItem)
    (item : PantryItem) :
  In item items -> occurs_in (name item) (prompt_of today items).
Proof.
  intros Hin. rewrite prompt_of_eq. unfold build_prompt.
  destruct (map name (filter (expiring_soonb today) items)) as [|e es] eqn:Ees.
  - apply (occurs_in_trans _ (join ", " (map name items))).
    + now apply occurs_in_join, in_map.
    + unfold plain_prompt. apply occurs_in_join. cbn. tauto.
  - destruct (str_in (name item) (e :: es)) eqn:Es.
    + apply (occurs_in_trans _ (join ", " (e :: es))).
      * now apply occurs_in_join, str_in_iff.
      * unfold priority_prompt. apply occurs_in_join. cbn. tauto.
    + apply (occurs_in_trans _
               (join ", " (not_in_expiring (e :: es) (map name items)))).
      * apply occurs_in_join. unfold not_in_expiring. apply filter_In.
        split; [now apply in_map | now rewrite Es].
      * unfold priority_prompt. apply occurs_in_join. cbn. tauto.
Qed.

Lemma names_occur_in_prompt_witness :
  occurs_in "Rice"
    (prompt_of 100 [mkPantryItem 1 "Eggs" (Some 101); mkPantryItem 2 "Rice" None]).
Proof.
  apply (names_occur_in_prompt 100
           [mkPantryItem 1 "Eggs" (Some 101); mkPantryItem 2 "Rice" None]
           (mkPantryItem 2 "Rice" None)).
  cbn. right. left. reflexivity.
Defined.

(** As soon as one item is expiring soon, and also when only one is, the
    prompt has the MUST USE heading and asks for at least 2 expiring
    ingredients. *)
Theorem priority_prompt_requirements (today : date) (items : list PantryItem) :
  (exists item, In item items /\ expiring_soon today item) ->
  occurs_in "MUST USE (expiring soon - HIGH PRIORITY):" (prompt_of today items)
  /\ occurs_in "- You MUST use at least 2 expiring ingredients"
       (prompt_of today items).
Proof.
  intros [x [Hx Ex]]. rewrite prompt_of_eq. unfold build_prompt.
  destruct (map name (filter (expiring_soonb today) items)) as [|e es] eqn:Ees.
  - apply map_eq_nil in Ees. exfalso.
    apply (filter_nonempty _ _ x Hx (proj2 (expiring_soonb_spec _ _) Ex) Ees).
  - unfold priority_prompt. split; apply occurs_in_join; cbn; tauto.
Qed.

Lemma priority_prompt_requirements_witness :
  let items := [mkPantryItem 1 "Eggs" (Some 101); mkPantryItem 2 "Rice" None] in
  List.length (filter (expiring_soonb 100) items) = 1%nat
  /\ occurs_in "- You MUST use at least 2 expiring ingredients"
       (prompt_of 100 items).
Proof.
  intros items. split; [reflexivity|].
  refine (proj2 (priority_prompt_requirements 100 items _)).
  exists (mkPantryItem 1 "Eggs" (Some 101)). split; [cbn; auto|].
  exists 101. split; [reflexivity | lia].
Defined.
